(** * CARES Bot scrapers: [pull_tweets.py] and [pull_text.py]

    A shallow embedding of the two scripts of the repository.

    - [pull_tweets.py] walks the timeline of one account, pulls the
      [media_url] column out of every tweet's [entities.media] records and
      writes the accumulated series to a CSV file.
    - [pull_text.py] fetches every image URL, runs OCR on each response and
      writes the recognised texts to a second CSV file.

    Everything the scripts get from the outside (the Twitter timeline, the
    input column, HTTP, the image decoder, the OCR engine, whether a path can
    be opened for writing) is gathered in one record, [world].  Python
    exceptions are values of type [exn]; a call that may raise returns a
    [result]; a script run returns its final variables, the file system and
    the exception that ended it, if any. *)

From Stdlib Require Import Ascii.
From stdpp Require Import base option list strings gmap sorting.

(** ** Exceptions and results *)

Inductive exn : Set :=
  | KeyError
  | TypeError
  | FileNotFoundError
  | PermissionError
  | ConnectionError
  | TweepError
  | UnidentifiedImageError
  | TesseractError
  | KeyboardInterrupt.

Global Instance exn_eq_dec : EqDecision exn.
Proof. solve_decision. Defined.

Inductive result (A : Type) : Type :=
  | Ok (a : A)
  | Raise (e : exn).
Arguments Ok {A} a.
Arguments Raise {A} e.

Global Instance result_ret : MRet result := fun A a => Ok a.
Global Instance result_bind : MBind result := fun A B f r =>
  match r with
  | Ok a => f a
  | Raise e => Raise e
  end.

(** [try: body except <clause>: handler].  [catches] is the except clause:
    the exceptions it names. *)
Definition try_except {A} (body : result A) (catches : exn -> bool)
    (handler : A) : result A :=
  match body with
  | Ok a => Ok a
  | Raise e => if catches e then Ok handler else Raise e
  end.

(** [except KeyError:] *)
Definition except_KeyError (e : exn) : bool := bool_decide (e = KeyError).

(** A bare [except:] names every exception. *)
Definition except_all (_ : exn) : bool := true.

(** [Series.apply(f)]: [f] on every element in order; the first exception
    ends the call. *)
Fixpoint apply {A B} (f : A -> result B) (l : list A) : result (list B) :=
  match l with
  | [] => Ok []
  | x :: l' => y ← f x; ys ← apply f l'; mret (y :: ys)
  end.

(** ** Tabular data *)

(** A value of a pandas object column: a string, or [None] for NaN. *)
Definition value : Type := option string.

(** [pd.Series]: the values; after [ignore_index=True] the index is
    [0 .. n-1], which is also the index of the empty series. *)
Definition Series : Type := list value.

(** [pd.DataFrame] with integer column labels and the default index. *)
Record Frame : Type := {
  columns : list nat;
  rows : list (list value)
}.

(** A field of a CSV file, before quoting. *)
Inductive cell : Set :=
  | Num (n : nat)
  | Text (s : string).

Global Instance cell_eq_dec : EqDecision cell.
Proof. solve_decision. Defined.

(** A CSV file: its lines, each a list of fields. *)
Definition csv_file : Type := list (list cell).

(** NaN is written as the empty field (the default [na_rep]). *)
Definition field (v : value) : cell :=
  match v with
  | Some s => Text s
  | None => Text EmptyString
  end.

(** [pd.DataFrame(l)] for a list of strings: one column labelled [0]; no
    column at all for the empty list. *)
Definition DataFrame (l : list string) : Frame :=
  {| columns := match l with [] => [] | _ => [0] end;
     rows := (fun s => [Some s]) <$> l |}.

(** [Series.to_frame()] of an unnamed series: one column labelled [0]. *)
Definition to_frame (s : Series) : Frame :=
  {| columns := [0]; rows := (fun v => [v]) <$> s |}.

(** The lines [DataFrame.to_csv(path, index=index)] writes: the header
    (with the empty label of the unnamed index when [index] is set), then
    one line per row (led by the row's position when [index] is set). *)
Definition csv_lines (index : bool) (df : Frame) : csv_file :=
  ((if index then [Text EmptyString] else []) ++ (Num <$> columns df))
  :: imap (fun i r => (if index then [Num i] else []) ++ (field <$> r)) (rows df).

(** ** The outside world *)

(** One record of the [entities.media] list of a tweet.  [media_url] is
    [None] when the record has no [media_url] key. *)
Record media_item : Type := {
  media_url : option string
}.

(** What a tweet's [entities] dict holds under ["media"]. *)
Inductive media_field : Type :=
  | MediaAbsent                           (* no "media" key *)
  | MediaNull                             (* "media": null *)
  | MediaList (items : list media_item)   (* "media": [ {...}, ... ] *)
  | MediaOther.                           (* any other value, e.g. a string *)

(** [tweet._json], as far as the script reads it.  [entities] is [None]
    when the payload has no ["entities"] key. *)
Record tweet : Type := {
  entities : option media_field
}.

(** [requests.Response] *)
Record Response : Type := {
  content : string
}.

(** A decoded [PIL.Image]. *)
Inductive Image : Set :=
  | Pixels (data : string).

Record world : Type := {
  (** iterating [tweepy.Cursor(api.user_timeline, ...).items()]: the tweets
      it yields and the exception that ends the iteration, if any
      (rate limits are waited out inside the client and yield nothing) *)
  user_timeline : list tweet * option exn;
  (** [pd.read_csv(path, names=["images"], skiprows=1)["images"]] *)
  read_csv_images : result (list string);
  (** [requests.get(url)] *)
  requests_get : string -> result Response;
  (** [Image.open(BytesIO(content))] *)
  Image_open : string -> result Image;
  (** [pytesseract.image_to_string(image)] *)
  image_to_string : Image -> result string;
  (** opening a path for writing: the exception raised, if any *)
  open_for_write : string -> option exn
}.

(** The files on disk, by path. *)
Abbreviation files := (gmap string csv_file).

(** [df.to_csv(path, index=index)]: replaces the file at [path], or raises
    and leaves the disk as it was. *)
Definition to_csv (w : world) (fs : files) (df : Frame) (path : string)
    (index : bool) : files * option exn :=
  match open_for_write w path with
  | Some e => (fs, Some e)
  | None => (<[path := csv_lines index df]> fs, None)
  end.

(** ** [pull_tweets.py] *)

Module PullTweets.

(** The path handed to [cares_bot.to_csv]. *)
Definition out_path : string :=
  "C:/Users/Rober/DATS_6103/project_2/data/cares_bot_image_urls.csv".

(** [pd.json_normalize(tweet._json, ["entities", "media"])]: the records
    under the path, one row each.  A missing key on the path is a
    [KeyError]; a null value gives no rows; a value that is neither a list
    nor null is a [TypeError]. *)
Definition json_normalize (t : tweet) : result (list media_item) :=
  match entities t with
  | None => Raise KeyError
  | Some MediaAbsent => Raise KeyError
  | Some MediaNull => Ok []
  | Some (MediaList items) => Ok items
  | Some MediaOther => Raise TypeError
  end.

(** [df["media_url"]]: the frame has the column when one of its rows has
    the key; rows without it hold NaN.  No such column is a [KeyError]. *)
Definition media_url_column (df : list media_item) : result Series :=
  if existsb (fun r => bool_decide (is_Some (media_url r))) df
  then Ok (media_url <$> df)
  else Raise KeyError.

(** [pd.json_normalize(tweet._json, ["entities", "media"])["media_url"]] *)
Definition media_urls (t : tweet) : result Series :=
  df ← json_normalize t; media_url_column df.

(** [cares_bot.append(..., ignore_index=True)], the body of the [try]. *)
Definition append_media (cares_bot : Series) (t : tweet) : result Series :=
  col ← media_urls t; mret (cares_bot ++ col).

(** The second loop: [for tweet in cares_bot_tweets: try ... except
    KeyError: continue].  Returns the series and the exception that left
    the loop, if any. *)
Fixpoint media_loop (cares_bot_tweets : list tweet) (cares_bot : Series)
    : Series * option exn :=
  match cares_bot_tweets with
  | [] => (cares_bot, None)
  | t :: rest =>
      match try_except (append_media cares_bot t) except_KeyError cares_bot with
      | Ok cares_bot' => media_loop rest cares_bot'
      | Raise e => (cares_bot, Some e)
      end
  end.

(** The first exception of the [try] body that the except clause does not
    name, going through the tweets in order. *)
Fixpoint first_unhandled (ts : list tweet) : option exn :=
  match ts with
  | [] => None
  | t :: rest =>
      match media_urls t with
      | Ok _ => first_unhandled rest
      | Raise e => if except_KeyError e then first_unhandled rest else Some e
      end
  end.

(** The URLs of the tweets gone through before such an exception: all the
    [media_url] values of each tweet that has some, in order. *)
Fixpoint extracted (ts : list tweet) : Series :=
  match ts with
  | [] => []
  | t :: rest =>
      match media_urls t with
      | Ok col => col ++ extracted rest
      | Raise e => if except_KeyError e then extracted rest else []
      end
  end.

(** The script's variables, the disk and the uncaught exception when the
    interpreter stops. *)
Record run : Type := {
  cares_bot_tweets : list tweet;
  cares_bot : Series;
  disk : files;
  uncaught : option exn
}.

Definition main (w : world) (fs : files) : run :=
  match user_timeline w with
  | (items, Some e) =>
      {| cares_bot_tweets := items; cares_bot := []; disk := fs;
         uncaught := Some e |}
  | (items, None) =>
      match media_loop items [] with
      | (s, Some e) =>
          {| cares_bot_tweets := items; cares_bot := s; disk := fs;
             uncaught := Some e |}
      | (s, None) =>
          let '(fs', r) := to_csv w fs (to_frame s) out_path true in
          {| cares_bot_tweets := items; cares_bot := s; disk := fs';
             uncaught := r |}
      end
  end.

End PullTweets.

(** ** [pull_text.py] *)

Module PullText.

(** The path handed to [cares_bot_survey_data.to_csv]. *)
Definition out_path : string :=
  "C:/Users/Rober/DATS_6103/project_2/data/cares_bot_survey_data.csv".

Definition newline : ascii := "010"%char.
Definition space : ascii := " "%char.

(** [s.replace(old, new)] for one-character [old] and [new]. *)
Fixpoint replace (old new : ascii) (s : string) : string :=
  match s with
  | EmptyString => EmptyString
  | String c s' =>
      String (if bool_decide (c = old) then new else c) (replace old new s')
  end.

(** The body of the [try], up to the append. *)
Definition ocr_text (w : world) (image : Response) : result string :=
  opened_image ← Image_open w (content image);
  text ← image_to_string w opened_image;
  mret (replace newline space text).

(** The loop over [enumerate(image_requests)], from position [index] on.
    The state is [(respondent_info, errors)]. *)
Fixpoint ocr_loop (w : world) (index : nat) (image_requests : list Response)
    (st : list string * list nat) : (list string * list nat) * option exn :=
  match image_requests with
  | [] => (st, None)
  | image :: rest =>
      match try_except
              (image_text ← ocr_text w image;
               mret (st.1 ++ [image_text], st.2))
              except_all
              (st.1, st.2 ++ [index]) with
      | Ok st' => ocr_loop w (S index) rest st'
      | Raise e => (st, Some e)
      end
  end.

(** What one [try] statement of the loop does to
    [(respondent_info, errors)]. *)
Definition ocr_turn (w : world) (index : nat) (image : Response)
    (st : list string * list nat) : list string * list nat :=
  match ocr_text w image with
  | Ok t => (st.1 ++ [t], st.2)
  | Raise _ => (st.1, st.2 ++ [index])
  end.

(** The texts of the responses that are decoded and recognised, in order. *)
Fixpoint recognised (w : world) (reqs : list Response) : list string :=
  match reqs with
  | [] => []
  | image :: rest =>
      match ocr_text w image with
      | Ok t => t :: recognised w rest
      | Raise _ => recognised w rest
      end
  end.

(** The positions, counted from [index], of the responses that are not. *)
Fixpoint failed (w : world) (index : nat) (reqs : list Response) : list nat :=
  match reqs with
  | [] => []
  | image :: rest =>
      match ocr_text w image with
      | Ok _ => failed w (S index) rest
      | Raise _ => index :: failed w (S index) rest
      end
  end.

Record run : Type := {
  image_requests : list Response;
  respondent_info : list string;
  errors : list nat;
  disk : files;
  uncaught : option exn
}.

Definition main (w : world) (fs : files) : run :=
  match urls ← read_csv_images w; apply (requests_get w) urls with
  | Raise e =>
      {| image_requests := []; respondent_info := []; errors := [];
         disk := fs; uncaught := Some e |}
  | Ok reqs =>
      match ocr_loop w 0 reqs ([], []) with
      | (st, Some e) =>
          {| image_requests := reqs; respondent_info := st.1;
             errors := st.2; disk := fs; uncaught := Some e |}
      | (st, None) =>
          let '(fs', r) := to_csv w fs (DataFrame st.1) out_path false in
          {| image_requests := reqs; respondent_info := st.1;
             errors := st.2; disk := fs'; uncaught := r |}
      end
  end.

End PullText.

(** ** Sample worlds *)

Module Examples.

(** A world for testing.  The URL [down] cannot be fetched; the payload of
    [html] is no image; the image of [blurred] makes the OCR engine fail;
    any other URL yields two lines of text.  Every path can be written. *)
Definition sample (timeline : list tweet * option exn)
    (images : result (list string)) : world :=
  {| user_timeline := timeline;
     read_csv_images := images;
     requests_get := fun url =>
       if bool_decide (url = "down") then Raise ConnectionError
       else Ok {| content := url |};
     Image_open := fun c =>
       if bool_decide (c = "html") then Raise UnidentifiedImageError
       else Ok (Pixels c);
     image_to_string := fun '(Pixels d) =>
       if bool_decide (d = "blurred") then Raise TesseractError
       else Ok (d +:+ String PullText.newline "benefits");
     open_for_write := fun _ => None |}.

Definition photo (url : string) : media_item := {| media_url := Some url |}.

Definition with_media (items : list media_item) : tweet :=
  {| entities := Some (MediaList items) |}.

Definition text_only : tweet := {| entities := Some MediaAbsent |}.

Definition malformed : tweet := {| entities := Some MediaOther |}.

(** A file left by an earlier run. *)
Definition stale (path : string) : files :=
  {[ path := [[Text "old"]] ]}.

End Examples.

(** * Properties *)

(** ** The result monad and [try_except] *)

Lemma bind_Ok {A B} (f : A -> result B) (a : A) : (Ok a ≫= f) = f a.
Proof. reflexivity. Qed.

Lemma bind_Raise {A B} (f : A -> result B) (e : exn) :
  (Raise e ≫= f) = Raise e.
Proof. reflexivity. Qed.

Lemma try_except_all {A} (body : result A) (handler : A) :
  exists a, try_except body except_all handler = Ok a.
Proof. destruct body as [a|e]; simpl; eauto. Qed.

Lemma try_except_KeyError {A} (handler : A) :
  try_except (Raise KeyError) except_KeyError handler = Ok handler.
Proof. reflexivity. Qed.

Lemma try_except_other {A} (e : exn) (handler : A) :
  e <> KeyError ->
  try_except (Raise e) except_KeyError handler = Raise e.
Proof.
  intros He. unfold try_except, except_KeyError.
  rewrite bool_decide_eq_false_2; done.
Qed.

Lemma apply_length {A B} (f : A -> result B) (l : list A) (ys : list B) :
  apply f l = Ok ys -> length ys = length l.
Proof.
  revert ys. induction l as [|x l IH]; intros ys; simpl.
  - intros [= <-]. reflexivity.
  - destruct (f x) as [y|e]; simpl; [|discriminate].
    destruct (apply f l) as [ys'|e]; simpl; [|discriminate].
    intros [= <-]. simpl. f_equal. by apply IH.
Qed.

(** ** The OCR loop *)

Section ocr.
Context (w : world).

Import PullText.

Lemma ocr_loop_cons index image rest st :
  ocr_loop w index (image :: rest) st
  = ocr_loop w (S index) rest (ocr_turn w index image st).
Proof.
  simpl. unfold ocr_turn.
  destruct (ocr_text w image) as [t|e]; reflexivity.
Qed.

Lemma ocr_text_open_fails image e :
  Image_open w (content image) = Raise e -> ocr_text w image = Raise e.
Proof. unfold ocr_text. by intros ->. Qed.

Lemma ocr_text_recognition_fails image opened e :
  Image_open w (content image) = Ok opened ->
  image_to_string w opened = Raise e ->
  ocr_text w image = Raise e.
Proof. unfold ocr_text. intros H1 H2. rewrite H1. simpl. by rewrite H2. Qed.

Lemma ocr_text_ok image opened text :
  Image_open w (content image) = Ok opened ->
  image_to_string w opened = Ok text ->
  ocr_text w image = Ok (replace newline space text).
Proof. unfold ocr_text. intros H1 H2. rewrite H1. simpl. by rewrite H2. Qed.

(** The bare [except] lets nothing out of the loop. *)
Lemma ocr_loop_completes reqs : forall index st,
  (ocr_loop w index reqs st).2 = None.
Proof.
  induction reqs as [|image rest IH]; intros index st.
  - reflexivity.
  - rewrite ocr_loop_cons. apply IH.
Qed.

(** Every turn adds one entry to exactly one of the two lists. *)
Lemma ocr_loop_count reqs : forall index st,
  let st' := (ocr_loop w index reqs st).1 in
  length st'.1 + length st'.2 = length st.1 + length st.2 + length reqs.
Proof.
  induction reqs as [|image rest IH]; intros index st; simpl.
  - lia.
  - pose proof (IH (S index) (ocr_turn w index image st)) as H.
    simpl in H. rewrite <- ocr_loop_cons in H. simpl in H. rewrite H.
    unfold ocr_turn. destruct (ocr_text w image); simpl;
      rewrite ?length_app; simpl; lia.
Qed.

(** The positions recorded so far stay recorded. *)
Lemma ocr_loop_errors_kept reqs : forall index st i,
  i ∈ st.2 -> i ∈ (ocr_loop w index reqs st).1.2.
Proof.
  induction reqs as [|image rest IH]; intros index st i Hi.
  - exact Hi.
  - rewrite ocr_loop_cons. apply IH. unfold ocr_turn.
    destruct (ocr_text w image); simpl; [done|].
    apply elem_of_app. by left.
Qed.

(** A position whose item fails is recorded. *)
Lemma ocr_loop_records_failure reqs : forall index st k image e,
  reqs !! k = Some image ->
  ocr_text w image = Raise e ->
  (index + k) ∈ (ocr_loop w index reqs st).1.2.
Proof.
  induction reqs as [|r rest IH]; intros index st k image e Hk He.
  - discriminate.
  - rewrite ocr_loop_cons. destruct k as [|k]; simpl in Hk.
    + injection Hk as ->. apply ocr_loop_errors_kept.
      unfold ocr_turn. rewrite He. simpl.
      apply elem_of_app. right. rewrite Nat.add_0_r. by apply list_elem_of_singleton.
    + replace (index + S k) with (S index + k) by lia. by eapply IH.
Qed.

(** Every stored text is free of line feeds when the ones before were. *)
Lemma ocr_loop_texts reqs (P : string -> Prop) : forall index st,
  (forall image t, ocr_text w image = Ok t -> P t) ->
  Forall P st.1 -> Forall P (ocr_loop w index reqs st).1.1.
Proof.
  induction reqs as [|image rest IH]; intros index st HP Hst.
  - exact Hst.
  - rewrite ocr_loop_cons. apply IH; [exact HP|].
    unfold ocr_turn. destruct (ocr_text w image) as [t|e] eqn:Ht; simpl.
    + apply Forall_app. split; [done|]. constructor; [by eapply HP|constructor].
    + exact Hst.
Qed.

(** The loop in closed form. *)
Lemma ocr_loop_closed reqs : forall index st,
  ocr_loop w index reqs st
  = ((st.1 ++ recognised w reqs, st.2 ++ failed w index reqs), None).
Proof.
  induction reqs as [|image rest IH]; intros index [ri errs].
  - simpl. by rewrite !app_nil_r.
  - rewrite ocr_loop_cons, IH. unfold ocr_turn. simpl.
    destruct (ocr_text w image) as [t|e]; simpl;
      by rewrite <- ?app_assoc.
Qed.

End ocr.

(** ** [pull_text.py] as a whole *)

Section pull_text.
Context (w : world) (fs : files).

Import PullText.

(** Once the column is read and every URL fetched, the run is the loop
    followed by the write. *)
Lemma main_enumerated urls reqs :
  read_csv_images w = Ok urls ->
  apply (requests_get w) urls = Ok reqs ->
  main w fs =
    let st := (ocr_loop w 0 reqs ([], [])).1 in
    let out := to_csv w fs (DataFrame st.1) out_path false in
    {| image_requests := reqs; respondent_info := st.1; errors := st.2;
       disk := out.1; uncaught := out.2 |}.
Proof.
  intros Hread Hget. unfold main. rewrite Hread. simpl. rewrite Hget.
  pose proof (ocr_loop_completes w reqs 0 ([], [])) as Hnone.
  destruct (ocr_loop w 0 reqs ([], [])) as [st r]. simpl in *. subst r.
  by destruct (to_csv w fs (DataFrame st.1) out_path false).
Qed.

(** A failed read or fetch ends the run with nothing done. *)
Lemma main_not_enumerated e :
  (urls ← read_csv_images w; apply (requests_get w) urls) = Raise e ->
  main w fs =
    {| image_requests := []; respondent_info := []; errors := [];
       disk := fs; uncaught := Some e |}.
Proof. intros H. unfold main. by rewrite H. Qed.

Lemma main_cases :
  (exists e, (urls ← read_csv_images w; apply (requests_get w) urls) = Raise e)
  \/ (exists urls reqs, read_csv_images w = Ok urls
                        /\ apply (requests_get w) urls = Ok reqs).
Proof.
  destruct (read_csv_images w) as [urls|e]; simpl; [|eauto].
  destruct (apply (requests_get w) urls) as [reqs|e] eqn:H; eauto.
Qed.

End pull_text.

(** ** Outcomes per item *)

(** C1, as amended: in every run of the OCR script each enumerated response
    yields exactly one outcome, so the number of texts in [respondent_info]
    plus the number of positions in [errors] is the number of responses. *)
Theorem one_outcome_per_image (w : world) (fs : files) :
  length (PullText.respondent_info (PullText.main w fs))
  + length (PullText.errors (PullText.main w fs))
  = length (PullText.image_requests (PullText.main w fs)).
Proof.
  destruct (main_cases w) as [[e He]|(urls & reqs & Hread & Hget)].
  - by rewrite (main_not_enumerated w fs e He).
  - rewrite (main_enumerated w fs urls reqs Hread Hget). simpl.
    pose proof (ocr_loop_count w reqs 0 ([], [])) as H. simpl in H. exact H.
Qed.

(** C1 fails for the link script: it keeps no list of failed positions, and
    a tweet with two media records adds two entries to [cares_bot], more
    than any count of failures can balance. *)
Lemma one_outcome_per_tweet_fails :
  ~ (forall (w : world) (fs : files),
       exists failures : list nat,
         length (PullTweets.cares_bot (PullTweets.main w fs)) + length failures
         = length (PullTweets.cares_bot_tweets (PullTweets.main w fs))).
Proof.
  intros H.
  destruct (H (Examples.sample
                 ([Examples.with_media [Examples.photo "a"; Examples.photo "b"]], None)
                 (Ok []))
              ∅) as [failures Hlen].
  vm_compute in Hlen. lia.
Qed.

(** ** Failures of the OCR transformer *)

(** C3, as amended: when the payload of a fetched response cannot be
    decoded as an image, or the recognition engine fails on it, the
    position of the response is recorded in [errors] and no exception
    leaves the loop: the run ends as its final write ends. *)
Theorem ocr_failure_recorded (w : world) (fs : files) (urls : list string)
    (reqs : list Response) (i : nat) (image : Response) (e : exn) :
  read_csv_images w = Ok urls ->
  apply (requests_get w) urls = Ok reqs ->
  reqs !! i = Some image ->
  Image_open w (content image) = Raise e
  \/ (exists opened, Image_open w (content image) = Ok opened
                     /\ image_to_string w opened = Raise e) ->
  i ∈ PullText.errors (PullText.main w fs)
  /\ PullText.uncaught (PullText.main w fs) = open_for_write w PullText.out_path.
Proof.
  intros Hread Hget Hi Hfail.
  rewrite (main_enumerated w fs urls reqs Hread Hget). simpl. split.
  - assert (PullText.ocr_text w image = Raise e) as He.
    { destruct Hfail as [Hopen|(opened & Hopen & Hrec)].
      - by apply ocr_text_open_fails.
      - by eapply ocr_text_recognition_fails. }
    exact (ocr_loop_records_failure w reqs 0 ([], []) i image e Hi He).
  - unfold to_csv. by destruct (open_for_write w PullText.out_path).
Qed.

(** An HTML page in place of an image is recovered: its position, 1, is
    recorded and the run completes. *)
Lemma ocr_failure_recorded_witness :
  1 ∈ PullText.errors
        (PullText.main (Examples.sample ([], None) (Ok ["a.png"; "html"])) ∅)
  /\ PullText.uncaught
       (PullText.main (Examples.sample ([], None) (Ok ["a.png"; "html"])) ∅)
     = None.
Proof.
  apply (ocr_failure_recorded
           (Examples.sample ([], None) (Ok ["a.png"; "html"])) ∅
           ["a.png"; "html"]
           [{| content := "a.png" |}; {| content := "html" |}]
           1 {| content := "html" |} UnidentifiedImageError);
    [reflexivity | reflexivity | reflexivity | left; reflexivity].
Defined.

(** An exception raised by a fetch ends the run before the loop: nothing
    is recorded and nothing is written. *)
Lemma fetch_failure_ends_run (w : world) (fs : files) (urls : list string)
    (e : exn) :
  read_csv_images w = Ok urls ->
  apply (requests_get w) urls = Raise e ->
  PullText.uncaught (PullText.main w fs) = Some e
  /\ PullText.errors (PullText.main w fs) = []
  /\ PullText.disk (PullText.main w fs) = fs.
Proof.
  intros Hread Hget.
  rewrite (main_not_enumerated w fs e); [done|]. by rewrite Hread.
Qed.

(** C3 fails for fetch errors: [requests.get] runs for every URL before
    the loop and outside the [try], so an exception it raises ends the run
    with no position recorded. *)
Lemma fetch_error_not_recovered :
  ~ (forall (w : world) (fs : files) (urls : list string) (i : nat)
            (url : string) (e : exn),
       read_csv_images w = Ok urls ->
       urls !! i = Some url ->
       requests_get w url = Raise e ->
       i ∈ PullText.errors (PullText.main w fs)
       /\ PullText.uncaught (PullText.main w fs) <> Some e).
Proof.
  intros H.
  destruct (H (Examples.sample ([], None) (Ok ["a.png"; "down"])) ∅
              ["a.png"; "down"] 1 "down" ConnectionError
              eq_refl eq_refl eq_refl) as [_ Hun].
  apply Hun. reflexivity.
Qed.

(** ** Text normalisation *)

Lemma replace_chars old new s :
  String.list_ascii_of_string (PullText.replace old new s)
  = (fun c => if bool_decide (c = old) then new else c)
      <$> String.list_ascii_of_string s.
Proof. induction s as [|c s IH]; simpl; [done|]. by rewrite IH. Qed.

Lemma replace_removes old new s :
  new <> old -> old ∉ String.list_ascii_of_string (PullText.replace old new s).
Proof.
  intros Hne. rewrite replace_chars.
  induction s as [|c s IH]; simpl.
  - apply not_elem_of_nil.
  - apply not_elem_of_cons. split; [|exact IH].
    case_bool_decide; congruence.
Qed.

Lemma replace_length old new s :
  String.length (PullText.replace old new s) = String.length s.
Proof. induction s as [|c s IH]; simpl; [done|]. by rewrite IH. Qed.

Lemma ocr_text_no_newline w image t :
  PullText.ocr_text w image = Ok t ->
  PullText.newline ∉ String.list_ascii_of_string t.
Proof.
  unfold PullText.ocr_text.
  destruct (Image_open w (content image)) as [opened|e]; simpl; [|done].
  destruct (image_to_string w opened) as [text|e]; simpl; [|done].
  intros [= <-]. by apply replace_removes.
Qed.

(** C9: for an image that is decoded and recognised, the text stored is the
    recognised text with every line feed replaced by one space (every other
    character kept, so the length is unchanged), and no text in
    [respondent_info] holds a line feed. *)
Theorem line_breaks_to_spaces (w : world) (fs : files) (image : Response)
    (opened : Image) (text : string) :
  Image_open w (content image) = Ok opened ->
  image_to_string w opened = Ok text ->
  exists stored,
    PullText.ocr_text w image = Ok stored
    /\ String.list_ascii_of_string stored
       = ((fun c => if bool_decide (c = PullText.newline)
                    then PullText.space else c)
            <$> String.list_ascii_of_string text)
    /\ String.length stored = String.length text
    /\ (PullText.newline ∉ String.list_ascii_of_string stored)
    /\ Forall (fun s => PullText.newline ∉ String.list_ascii_of_string s)
         (PullText.respondent_info (PullText.main w fs)).
Proof.
  intros Hopen Hrec. exists (PullText.replace PullText.newline PullText.space text).
  split; [by eapply ocr_text_ok|].
  split; [apply replace_chars|].
  split; [apply replace_length|].
  split; [by apply replace_removes|].
  destruct (main_cases w) as [[e He]|(urls & reqs & Hread & Hget)].
  - rewrite (main_not_enumerated w fs e He). constructor.
  - rewrite (main_enumerated w fs urls reqs Hread Hget). simpl.
    apply ocr_loop_texts; [|constructor].
    intros im t. apply ocr_text_no_newline.
Qed.

(** The two lines recognised in [a.png] are stored on one line. *)
Lemma line_breaks_to_spaces_witness :
  exists stored,
    PullText.ocr_text (Examples.sample ([], None) (Ok ["a.png"]))
      {| content := "a.png" |} = Ok stored
    /\ String.list_ascii_of_string stored
       = ((fun c => if bool_decide (c = PullText.newline)
                    then PullText.space else c)
            <$> String.list_ascii_of_string
                  ("a.png" +:+ String PullText.newline "benefits"))
    /\ String.length stored
       = String.length ("a.png" +:+ String PullText.newline "benefits")
    /\ (PullText.newline ∉ String.list_ascii_of_string stored)
    /\ Forall (fun s => PullText.newline ∉ String.list_ascii_of_string s)
         (PullText.respondent_info
            (PullText.main (Examples.sample ([], None) (Ok ["a.png"])) ∅)).
Proof.
  apply (line_breaks_to_spaces
           (Examples.sample ([], None) (Ok ["a.png"])) ∅
           {| content := "a.png" |} (Pixels "a.png")
           ("a.png" +:+ String PullText.newline "benefits"));
    reflexivity.
Defined.

(** ** Order of the results *)

(** C6: when five responses are enumerated and the ones at positions 1 and
    3 fail, [respondent_info] holds the three texts of positions 0, 2 and 4
    in that order, [errors] is [[1; 3]], and the frame written is built from
    exactly those three texts. *)
Theorem five_items_two_failures (w : world) (fs : files) (urls : list string)
    (r0 r1 r2 r3 r4 : Response) (t0 t2 t4 : string) (e1 e3 : exn) :
  read_csv_images w = Ok urls ->
  apply (requests_get w) urls = Ok [r0; r1; r2; r3; r4] ->
  PullText.ocr_text w r0 = Ok t0 ->
  PullText.ocr_text w r1 = Raise e1 ->
  PullText.ocr_text w r2 = Ok t2 ->
  PullText.ocr_text w r3 = Raise e3 ->
  PullText.ocr_text w r4 = Ok t4 ->
  PullText.respondent_info (PullText.main w fs) = [t0; t2; t4]
  /\ PullText.errors (PullText.main w fs) = [1; 3]
  /\ (PullText.disk (PullText.main w fs), PullText.uncaught (PullText.main w fs))
     = to_csv w fs (DataFrame [t0; t2; t4]) PullText.out_path false.
Proof.
  intros Hread Hget H0 H1 H2 H3 H4.
  rewrite (main_enumerated w fs urls _ Hread Hget).
  rewrite !ocr_loop_cons. unfold PullText.ocr_turn.
  rewrite H0. simpl. rewrite H1. simpl. rewrite H2. simpl.
  rewrite H3. simpl. rewrite H4. simpl.
  split; [done|]. split; [done|].
  by destruct (to_csv w fs (DataFrame [t0; t2; t4]) PullText.out_path false).
Qed.

(** The three texts of [p0], [p2] and [p4] are kept in order; [html] and
    [blurred], at positions 1 and 3, are recorded. *)
Lemma five_items_two_failures_witness :
  PullText.respondent_info
    (PullText.main
       (Examples.sample ([], None) (Ok ["p0"; "html"; "p2"; "blurred"; "p4"])) ∅)
  = ["p0 benefits"; "p2 benefits"; "p4 benefits"]
  /\ PullText.errors
       (PullText.main
          (Examples.sample ([], None) (Ok ["p0"; "html"; "p2"; "blurred"; "p4"])) ∅)
     = [1; 3]
  /\ (PullText.disk
        (PullText.main
           (Examples.sample ([], None) (Ok ["p0"; "html"; "p2"; "blurred"; "p4"])) ∅),
      PullText.uncaught
        (PullText.main
           (Examples.sample ([], None) (Ok ["p0"; "html"; "p2"; "blurred"; "p4"])) ∅))
     = to_csv (Examples.sample ([], None) (Ok ["p0"; "html"; "p2"; "blurred"; "p4"]))
         ∅ (DataFrame ["p0 benefits"; "p2 benefits"; "p4 benefits"]) PullText.out_path false.
Proof.
  apply (five_items_two_failures
           (Examples.sample ([], None) (Ok ["p0"; "html"; "p2"; "blurred"; "p4"]))
           ∅ ["p0"; "html"; "p2"; "blurred"; "p4"]
           {| content := "p0" |} {| content := "html" |} {| content := "p2" |}
           {| content := "blurred" |} {| content := "p4" |}
           "p0 benefits" "p2 benefits" "p4 benefits"
           UnidentifiedImageError TesseractError);
    reflexivity.
Defined.

(** ** The media loop *)

Section media.

Import PullTweets.

Lemma append_media_Ok s t col :
  media_urls t = Ok col -> append_media s t = Ok (s ++ col).
Proof. unfold append_media. by intros ->. Qed.

Lemma append_media_Raise s t e :
  media_urls t = Raise e -> append_media s t = Raise e.
Proof. unfold append_media. by intros ->. Qed.

(** A tweet whose [try] body succeeds adds its whole column. *)
Lemma media_loop_Ok t rest s col :
  media_urls t = Ok col ->
  media_loop (t :: rest) s = media_loop rest (s ++ col).
Proof. intros H. simpl. by rewrite (append_media_Ok s t col H). Qed.

(** A [KeyError] is skipped over. *)
Lemma media_loop_KeyError t rest s :
  media_urls t = Raise KeyError ->
  media_loop (t :: rest) s = media_loop rest s.
Proof. intros H. simpl. by rewrite (append_media_Raise s t KeyError H). Qed.

(** Any other exception leaves the loop. *)
Lemma media_loop_unhandled t rest s e :
  media_urls t = Raise e -> e <> KeyError ->
  media_loop (t :: rest) s = (s, Some e).
Proof.
  intros H He. simpl. rewrite (append_media_Raise s t e H).
  by rewrite try_except_other.
Qed.

(** The loop in closed form. *)
Lemma media_loop_closed ts : forall s,
  media_loop ts s = (s ++ extracted ts, first_unhandled ts).
Proof.
  induction ts as [|t rest IH]; intros s.
  - simpl. by rewrite app_nil_r.
  - destruct (media_urls t) as [col|e] eqn:Ht.
    + rewrite (media_loop_Ok t rest s col Ht), IH. simpl. rewrite Ht.
      by rewrite app_assoc.
    + destruct (decide (e = KeyError)) as [->|He].
      * rewrite (media_loop_KeyError t rest s Ht), IH. simpl. by rewrite Ht.
      * rewrite (media_loop_unhandled t rest s e Ht He). simpl. rewrite Ht.
        unfold except_KeyError. rewrite bool_decide_eq_false_2 by done.
        by rewrite app_nil_r.
Qed.

Lemma first_unhandled_not_KeyError ts : first_unhandled ts <> Some KeyError.
Proof.
  induction ts as [|t rest IH]; simpl; [done|].
  destruct (media_urls t) as [col|e]; [done|].
  unfold except_KeyError. case_bool_decide; [done|]. congruence.
Qed.


Lemma media_urls_items t items :
  entities t = Some (MediaList items) ->
  Exists (fun r => is_Some (media_url r)) items ->
  media_urls t = Ok (media_url <$> items).
Proof.
  intros Ht Hex. unfold media_urls, json_normalize. rewrite Ht. simpl.
  unfold media_url_column.
  assert (existsb (fun r => bool_decide (is_Some (media_url r))) items = true)
    as ->; [|done].
  apply existsb_exists. apply Exists_exists in Hex as (r & Hin & Hr).
  exists r. split; [by apply list_elem_of_In|by apply bool_decide_eq_true_2].
Qed.

Lemma media_urls_no_url t items :
  entities t = Some (MediaList items) ->
  Forall (fun r => media_url r = None) items ->
  media_urls t = Raise KeyError.
Proof.
  intros Ht Hall. unfold media_urls, json_normalize. rewrite Ht. simpl.
  unfold media_url_column.
  assert (existsb (fun r => bool_decide (is_Some (media_url r))) items = false)
    as Hnone.
  { clear Ht. induction Hall as [|r items Hr Hall IH]; simpl; [done|].
    by rewrite IH, Hr. }
  by rewrite Hnone.
Qed.

End media.

(** ** [pull_tweets.py] as a whole *)

Section pull_tweets.
Context (w : world) (fs : files).

Import PullTweets.

Lemma main_timeline_fails items e :
  user_timeline w = (items, Some e) ->
  main w fs = {| cares_bot_tweets := items; cares_bot := []; disk := fs;
                 uncaught := Some e |}.
Proof. intros H. unfold main. by rewrite H. Qed.

Lemma main_loop_left ts e :
  user_timeline w = (ts, None) ->
  first_unhandled ts = Some e ->
  main w fs = {| cares_bot_tweets := ts; cares_bot := extracted ts;
                 disk := fs; uncaught := Some e |}.
Proof.
  intros H He. unfold main. by rewrite H, media_loop_closed, He.
Qed.

Lemma main_written ts :
  user_timeline w = (ts, None) ->
  first_unhandled ts = None ->
  main w fs =
    let out := to_csv w fs (to_frame (extracted ts)) out_path true in
    {| cares_bot_tweets := ts; cares_bot := extracted ts;
       disk := out.1; uncaught := out.2 |}.
Proof.
  intros H He. unfold main. rewrite H, media_loop_closed, He. simpl.
  by destruct (to_csv w fs (to_frame (extracted ts)) out_path true).
Qed.

End pull_tweets.

Lemma pull_text_closed w fs urls reqs :
  read_csv_images w = Ok urls ->
  apply (requests_get w) urls = Ok reqs ->
  PullText.main w fs =
    let texts := PullText.recognised w reqs in
    let out := to_csv w fs (DataFrame texts) PullText.out_path false in
    {| PullText.image_requests := reqs;
       PullText.respondent_info := texts;
       PullText.errors := PullText.failed w 0 reqs;
       PullText.disk := out.1; PullText.uncaught := out.2 |}.
Proof.
  intros Hread Hget. rewrite (main_enumerated w fs urls reqs Hread Hget).
  by rewrite ocr_loop_closed.
Qed.

(** ** The media-link extractor *)

(** C2, as amended: for a tweet with no attached media (no [media] key, a
    null, or an empty list) the extractor raises [KeyError] and the loop
    skips the tweet; for a tweet with N >= 1 media records it yields the
    URLs of all N records, in order, and the loop appends all of them. *)
Theorem media_link_extractor (t : tweet) (items : list media_item)
    (rest : list tweet) (s : Series) :
  entities t = Some (MediaList items)
  \/ (items = []
      /\ (entities t = Some MediaAbsent \/ entities t = Some MediaNull)) ->
  Forall (fun r => is_Some (media_url r)) items ->
  PullTweets.media_urls t
  = match items with
    | [] => Raise KeyError
    | _ => Ok (media_url <$> items)
    end
  /\ PullTweets.media_loop (t :: rest) s
     = PullTweets.media_loop rest (s ++ (media_url <$> items)).
Proof.
  intros Ht Hurls.
  assert (PullTweets.media_urls t
          = match items with
            | [] => Raise KeyError
            | _ => Ok (media_url <$> items)
            end) as Hcol.
  { destruct Ht as [Ht|[-> [Ht|Ht]]].
    - destruct items as [|r items].
      + by apply (media_urls_no_url t []).
      + apply media_urls_items; [done|].
        apply Exists_cons_hd. by inversion Hurls.
    - unfold PullTweets.media_urls, PullTweets.json_normalize. by rewrite Ht.
    - unfold PullTweets.media_urls, PullTweets.json_normalize. by rewrite Ht. }
  split; [exact Hcol|].
  destruct items as [|r items].
  - rewrite (media_loop_KeyError t rest s Hcol). simpl. by rewrite app_nil_r.
  - by rewrite (media_loop_Ok t rest s _ Hcol).
Qed.

(** A tweet with two photos yields both URLs. *)
Lemma media_link_extractor_witness :
  PullTweets.media_urls
    (Examples.with_media [Examples.photo "a"; Examples.photo "b"])
  = Ok [Some "a"; Some "b"]
  /\ PullTweets.media_loop
       [Examples.with_media [Examples.photo "a"; Examples.photo "b"];
        Examples.text_only] [Some "z"]
     = PullTweets.media_loop [Examples.text_only] [Some "z"; Some "a"; Some "b"].
Proof.
  apply (media_link_extractor
           (Examples.with_media [Examples.photo "a"; Examples.photo "b"])
           [Examples.photo "a"; Examples.photo "b"]
           [Examples.text_only] [Some "z"]).
  - left. reflexivity.
  - repeat constructor; eexists; reflexivity.
Defined.

(** C2 fails as stated: the extractor does not stop at the first media
    record of a tweet. *)
Lemma first_media_only_fails :
  ~ (forall (t : tweet) (first : media_item) (others : list media_item),
       entities t = Some (MediaList (first :: others)) ->
       PullTweets.media_urls t = Ok [media_url first]).
Proof.
  intros H.
  specialize (H (Examples.with_media [Examples.photo "a"; Examples.photo "b"])
                (Examples.photo "a") [Examples.photo "b"] eq_refl).
  discriminate H.
Qed.

Lemma first_unhandled_app_None before after :
  PullTweets.first_unhandled (before ++ after) = None ->
  PullTweets.first_unhandled before = None
  /\ PullTweets.first_unhandled after = None.
Proof.
  induction before as [|t before IH]; simpl; [done|].
  destruct (PullTweets.media_urls t) as [col|e]; [exact IH|].
  destruct (except_KeyError e); [exact IH|done].
Qed.

Lemma extracted_app before after :
  PullTweets.first_unhandled before = None ->
  PullTweets.extracted (before ++ after)
  = PullTweets.extracted before ++ PullTweets.extracted after.
Proof.
  induction before as [|t before IH]; simpl; [done|].
  destruct (PullTweets.media_urls t) as [col|e].
  - intros H. by rewrite IH, app_assoc.
  - destruct (except_KeyError e); [exact IH|done].
Qed.

(** C10: when a tweet of the timeline has N >= 1 media records, each with
    a URL, and the loop is not left early, [cares_bot] holds all N URLs of
    the tweet, in their order, between what the tweets before it and the
    tweets after it contribute. *)
Theorem all_media_urls_appended (w : world) (fs : files)
    (before after : list tweet) (t : tweet) (items : list media_item) :
  user_timeline w = (before ++ t :: after, None) ->
  PullTweets.first_unhandled (before ++ t :: after) = None ->
  entities t = Some (MediaList items) ->
  items <> [] ->
  Forall (fun r => is_Some (media_url r)) items ->
  PullTweets.cares_bot (PullTweets.main w fs)
  = PullTweets.extracted before ++ (media_url <$> items)
    ++ PullTweets.extracted after
  /\ length (media_url <$> items) = length items.
Proof.
  intros Htl Hloop Ht Hne Hurls. split; [|apply length_fmap].
  rewrite (main_written w fs _ Htl Hloop). simpl.
  destruct (first_unhandled_app_None _ _ Hloop) as [Hbefore _].
  rewrite (extracted_app _ _ Hbefore). f_equal. simpl.
  assert (PullTweets.media_urls t = Ok (media_url <$> items)) as ->; [|done].
  apply media_urls_items; [done|].
  destruct items as [|r items]; [done|].
  apply Exists_cons_hd. by inversion Hurls.
Qed.

(** A tweet with two photos between two others contributes two entries. *)
Lemma all_media_urls_appended_witness :
  PullTweets.cares_bot
    (PullTweets.main
       (Examples.sample
          ([Examples.with_media [Examples.photo "z"];
            Examples.with_media [Examples.photo "a"; Examples.photo "b"];
            Examples.text_only], None)
          (Ok [])) ∅)
  = [Some "z"] ++ [Some "a"; Some "b"] ++ []
  /\ length [Some "a"; Some "b"] = 2.
Proof.
  apply (all_media_urls_appended
           (Examples.sample
              ([Examples.with_media [Examples.photo "z"];
                Examples.with_media [Examples.photo "a"; Examples.photo "b"];
                Examples.text_only], None)
              (Ok [])) ∅
           [Examples.with_media [Examples.photo "z"]]
           [Examples.text_only]
           (Examples.with_media [Examples.photo "a"; Examples.photo "b"])
           [Examples.photo "a"; Examples.photo "b"]).
  - reflexivity.
  - reflexivity.
  - reflexivity.
  - discriminate.
  - repeat constructor; eexists; reflexivity.
Defined.

(** ** What can end a run *)

(** C4, as amended: once enumeration has succeeded, the OCR script recovers
    every failure of an item, of any kind, and goes on (its run ends as the
    final write ends); the link script recovers a failure of an item only
    when it is a [KeyError] and goes on; the first exception of any other
    kind leaves the loop and ends the run, and otherwise the run ends as the
    final write ends. *)
Theorem per_item_recovery (w : world) (fs : files) (urls : list string)
    (reqs : list Response) (ts : list tweet) :
  read_csv_images w = Ok urls ->
  apply (requests_get w) urls = Ok reqs ->
  user_timeline w = (ts, None) ->
  (PullText.respondent_info (PullText.main w fs) = PullText.recognised w reqs
   /\ PullText.errors (PullText.main w fs) = PullText.failed w 0 reqs
   /\ PullText.uncaught (PullText.main w fs)
      = open_for_write w PullText.out_path)
  /\ (PullTweets.cares_bot (PullTweets.main w fs) = PullTweets.extracted ts
      /\ PullTweets.first_unhandled ts <> Some KeyError
      /\ PullTweets.uncaught (PullTweets.main w fs)
         = match PullTweets.first_unhandled ts with
           | Some e => Some e
           | None => open_for_write w PullTweets.out_path
           end).
Proof.
  intros Hread Hget Htl. split.
  - rewrite (pull_text_closed w fs urls reqs Hread Hget). simpl.
    split; [done|]. split; [done|].
    unfold to_csv. by destruct (open_for_write w PullText.out_path).
  - split; [|split; [apply first_unhandled_not_KeyError|]].
    + destruct (PullTweets.first_unhandled ts) as [e|] eqn:He.
      * by rewrite (main_loop_left w fs ts e Htl He).
      * by rewrite (main_written w fs ts Htl He).
    + destruct (PullTweets.first_unhandled ts) as [e|] eqn:He.
      * by rewrite (main_loop_left w fs ts e Htl He).
      * rewrite (main_written w fs ts Htl He). simpl.
        unfold to_csv. by destruct (open_for_write w PullTweets.out_path).
Qed.

(** Both scripts get past their failing items: the OCR run records
    positions 0 and 2, the link run skips the tweet without media. *)
Lemma per_item_recovery_witness :
  (PullText.respondent_info
     (PullText.main
        (Examples.sample
           ([Examples.text_only; Examples.with_media [Examples.photo "a"]], None)
           (Ok ["html"; "p1"; "blurred"])) ∅)
   = ["p1 benefits"]
   /\ PullText.errors
        (PullText.main
           (Examples.sample
              ([Examples.text_only; Examples.with_media [Examples.photo "a"]], None)
              (Ok ["html"; "p1"; "blurred"])) ∅)
      = [0; 2]
   /\ PullText.uncaught
        (PullText.main
           (Examples.sample
              ([Examples.text_only; Examples.with_media [Examples.photo "a"]], None)
              (Ok ["html"; "p1"; "blurred"])) ∅)
      = None)
  /\ (PullTweets.cares_bot
        (PullTweets.main
           (Examples.sample
              ([Examples.text_only; Examples.with_media [Examples.photo "a"]], None)
              (Ok ["html"; "p1"; "blurred"])) ∅)
      = [Some "a"]
      /\ None <> Some KeyError
      /\ PullTweets.uncaught
           (PullTweets.main
              (Examples.sample
                 ([Examples.text_only; Examples.with_media [Examples.photo "a"]], None)
                 (Ok ["html"; "p1"; "blurred"])) ∅)
         = None).
Proof.
  apply (per_item_recovery
           (Examples.sample
              ([Examples.text_only; Examples.with_media [Examples.photo "a"]], None)
              (Ok ["html"; "p1"; "blurred"])) ∅
           ["html"; "p1"; "blurred"]
           [{| content := "html" |}; {| content := "p1" |};
            {| content := "blurred" |}]
           [Examples.text_only; Examples.with_media [Examples.photo "a"]]);
    reflexivity.
Defined.

(** C4 fails for the link script: its except clause names [KeyError] only,
    so the [TypeError] of a tweet whose [media] entry is not a list ends the
    run although every path can be written. *)
Lemma other_exception_not_recovered :
  ~ (forall (w : world) (fs : files) (ts : list tweet),
       user_timeline w = (ts, None) ->
       PullTweets.uncaught (PullTweets.main w fs)
       = open_for_write w PullTweets.out_path).
Proof.
  intros H.
  specialize (H (Examples.sample
                   ([Examples.malformed;
                     Examples.with_media [Examples.photo "a"]], None)
                   (Ok []))
                ∅ _ eq_refl).
  discriminate H.
Qed.

(** C5: when the iteration over the timeline ends with an exception, the
    run ends with that exception and the disk is as it was: the write is
    never reached. *)
Theorem enumeration_failure_writes_nothing (w : world) (fs : files)
    (items : list tweet) (e : exn) :
  user_timeline w = (items, Some e) ->
  PullTweets.uncaught (PullTweets.main w fs) = Some e
  /\ PullTweets.disk (PullTweets.main w fs) = fs.
Proof. intros H. by rewrite (main_timeline_fails w fs items e H). Qed.

(** An authentication failure after one tweet leaves no file. *)
Lemma enumeration_failure_writes_nothing_witness :
  PullTweets.uncaught
    (PullTweets.main
       (Examples.sample
          ([Examples.with_media [Examples.photo "a"]], Some TweepError)
          (Ok [])) ∅)
  = Some TweepError
  /\ PullTweets.disk
       (PullTweets.main
          (Examples.sample
             ([Examples.with_media [Examples.photo "a"]], Some TweepError)
             (Ok [])) ∅)
     = ∅.
Proof.
  apply (enumeration_failure_writes_nothing
           (Examples.sample
              ([Examples.with_media [Examples.photo "a"]], Some TweepError)
              (Ok [])) ∅
           [Examples.with_media [Examples.photo "a"]] TweepError).
  reflexivity.
Defined.

(** ** The files written *)

Lemma csv_lines_DataFrame (texts : list string) :
  csv_lines false (DataFrame texts)
  = (Num <$> match texts with [] => [] | _ => [0] end)
    :: ((fun t => [Text t]) <$> texts).
Proof.
  unfold csv_lines, DataFrame. simpl. f_equal.
  rewrite imap_fmap. unfold compose. simpl. apply imap_const.
Qed.

Lemma csv_lines_to_frame (s : Series) :
  csv_lines true (to_frame s)
  = [Text EmptyString; Num 0] :: imap (fun i v => [Num i; field v]) s.
Proof.
  unfold csv_lines, to_frame. simpl. f_equal. by rewrite imap_fmap.
Qed.

Lemma to_csv_written w fs df path index :
  open_for_write w path = None ->
  to_csv w fs df path index = (<[path := csv_lines index df]> fs, None).
Proof. unfold to_csv. by intros ->. Qed.

(** C7, as amended: a run that reaches its write replaces whatever is at
    the configured path.  The OCR script writes a header line and then one
    line per recognised image, each holding the one text.  The link script
    writes a header line and then one line per media URL extracted (all the
    URLs of each tweet that has some), each holding two fields: the
    position of the line and the URL. *)
Theorem output_files (w : world) (fs : files) (urls : list string)
    (reqs : list Response) (ts : list tweet) :
  read_csv_images w = Ok urls ->
  apply (requests_get w) urls = Ok reqs ->
  user_timeline w = (ts, None) ->
  PullTweets.first_unhandled ts = None ->
  open_for_write w PullText.out_path = None ->
  open_for_write w PullTweets.out_path = None ->
  PullText.disk (PullText.main w fs)
  = <[PullText.out_path :=
        (Num <$> match PullText.recognised w reqs with [] => [] | _ => [0] end)
        :: ((fun t => [Text t]) <$> PullText.recognised w reqs)]> fs
  /\ PullTweets.disk (PullTweets.main w fs)
     = <[PullTweets.out_path :=
           [Text EmptyString; Num 0]
           :: imap (fun i v => [Num i; field v]) (PullTweets.extracted ts)]> fs.
Proof.
  intros Hread Hget Htl Hloop Hw1 Hw2. split.
  - rewrite (pull_text_closed w fs urls reqs Hread Hget). simpl.
    rewrite (to_csv_written w fs _ _ _ Hw1). simpl.
    by rewrite csv_lines_DataFrame.
  - rewrite (main_written w fs ts Htl Hloop). simpl.
    rewrite (to_csv_written w fs _ _ _ Hw2). simpl.
    by rewrite csv_lines_to_frame.
Qed.

(** Two recognised images out of three and three URLs out of two tweets,
    written over what an earlier run left. *)
Lemma output_files_witness :
  PullText.disk
    (PullText.main
       (Examples.sample
          ([Examples.with_media [Examples.photo "a"; Examples.photo "b"];
            Examples.text_only;
            Examples.with_media [Examples.photo "c"]], None)
          (Ok ["p0"; "html"; "p2"]))
       (Examples.stale PullText.out_path))
  = <[PullText.out_path :=
        [[Num 0]; [Text "p0 benefits"]; [Text "p2 benefits"]]]>
      (Examples.stale PullText.out_path)
  /\ PullTweets.disk
       (PullTweets.main
          (Examples.sample
             ([Examples.with_media [Examples.photo "a"; Examples.photo "b"];
               Examples.text_only;
               Examples.with_media [Examples.photo "c"]], None)
             (Ok ["p0"; "html"; "p2"]))
          (Examples.stale PullText.out_path))
     = <[PullTweets.out_path :=
           [[Text EmptyString; Num 0];
            [Num 0; Text "a"]; [Num 1; Text "b"]; [Num 2; Text "c"]]]>
         (Examples.stale PullText.out_path).
Proof.
  apply (output_files
           (Examples.sample
              ([Examples.with_media [Examples.photo "a"; Examples.photo "b"];
                Examples.text_only;
                Examples.with_media [Examples.photo "c"]], None)
              (Ok ["p0"; "html"; "p2"]))
           (Examples.stale PullText.out_path)
           ["p0"; "html"; "p2"]
           [{| content := "p0" |}; {| content := "html" |}; {| content := "p2" |}]
           [Examples.with_media [Examples.photo "a"; Examples.photo "b"];
            Examples.text_only;
            Examples.with_media [Examples.photo "c"]]);
    reflexivity.
Defined.

(** C7 fails for the link script: the series is written with its index, so
    every line of the file has two fields. *)
Lemma link_file_not_single_column :
  ~ (forall (w : world) (fs : files) (lines : csv_file),
       PullTweets.disk (PullTweets.main w fs) !! PullTweets.out_path
       = Some lines ->
       Forall (fun line => length line = 1) lines).
Proof.
  intros H.
  specialize (H (Examples.sample
                   ([Examples.with_media [Examples.photo "a"]], None) (Ok []))
                ∅ [[Text EmptyString; Num 0]; [Num 0; Text "a"]]).
  assert (Forall (fun line : list cell => length line = 1)
            [[Text EmptyString; Num 0]; [Num 0; Text "a"]]) as Hall.
  { apply H. apply lookup_insert_eq. }
  inversion Hall as [|line lines Hlen _]. discriminate Hlen.
Qed.

(** C8: when enumeration yields nothing and the paths can be written, both
    scripts complete without an exception and write a file that holds the
    header line only: the two column labels for the link script, an empty
    line for the OCR script. *)
Theorem empty_enumeration (w : world) (fs : files) :
  user_timeline w = ([], None) ->
  read_csv_images w = Ok [] ->
  open_for_write w PullTweets.out_path = None ->
  open_for_write w PullText.out_path = None ->
  (PullTweets.uncaught (PullTweets.main w fs) = None
   /\ PullTweets.disk (PullTweets.main w fs)
      = <[PullTweets.out_path := [[Text EmptyString; Num 0]]]> fs)
  /\ (PullText.uncaught (PullText.main w fs) = None
      /\ PullText.disk (PullText.main w fs)
         = <[PullText.out_path := [[]]]> fs).
Proof.
  intros Htl Hread Hw1 Hw2. split.
  - rewrite (main_written w fs [] Htl eq_refl). simpl.
    by rewrite (to_csv_written w fs _ _ _ Hw1).
  - rewrite (pull_text_closed w fs [] [] Hread eq_refl). simpl.
    by rewrite (to_csv_written w fs _ _ _ Hw2).
Qed.

(** With no tweet and no URL both runs complete and write their header. *)
Lemma empty_enumeration_witness :
  (PullTweets.uncaught
     (PullTweets.main (Examples.sample ([], None) (Ok [])) ∅) = None
   /\ PullTweets.disk
        (PullTweets.main (Examples.sample ([], None) (Ok [])) ∅)
      = <[PullTweets.out_path := [[Text EmptyString; Num 0]]]> ∅)
  /\ (PullText.uncaught
        (PullText.main (Examples.sample ([], None) (Ok [])) ∅) = None
      /\ PullText.disk
           (PullText.main (Examples.sample ([], None) (Ok [])) ∅)
         = <[PullText.out_path := [[]]]> ∅).
Proof.
  apply (empty_enumeration (Examples.sample ([], None) (Ok [])) ∅);
    reflexivity.
Defined.

(** * Further properties *)

(** ** The eager fetch *)

Lemma apply_Forall2 {A B} (f : A -> result B) (l : list A) (ys : list B) :
  apply f l = Ok ys <-> Forall2 (fun x y => f x = Ok y) l ys.
Proof.
  revert ys. induction l as [|x l IH]; intros ys; simpl.
  - split.
    + intros [= <-]. constructor.
    + intros H. by inversion H.
  - split.
    + destruct (f x) as [y|e] eqn:Hx; simpl; [|done].
      destruct (apply f l) as [ys'|e] eqn:Hl; simpl; [|done].
      intros [= <-]. constructor; [done|]. by apply IH.
    + intros H. inversion H as [|x' y l' ys' Hx Hrest]; subst.
      rewrite Hx. simpl. apply IH in Hrest. by rewrite Hrest.
Qed.

Lemma apply_raises {A B} (f : A -> result B) (l : list A) (x : A) (e : exn) :
  x ∈ l -> f x = Raise e -> exists e', apply f l = Raise e'.
Proof.
  induction l as [|x' l IH]; intros Hin Hx.
  - by apply elem_of_nil in Hin.
  - simpl. destruct (f x') as [y|e'] eqn:Hx'; simpl; [|eauto].
    apply elem_of_cons in Hin as [->|Hin]; [congruence|].
    destruct (IH Hin Hx) as [e'' ->]. simpl. eauto.
Qed.

(** X1: one URL of the column that cannot be fetched, wherever it stands,
    ends the whole OCR run with an exception: no image is processed, no
    position is recorded and nothing is written. *)
Theorem one_bad_url_ends_run (w : world) (fs : files) (urls : list string)
    (url : string) (e : exn) :
  read_csv_images w = Ok urls ->
  url ∈ urls ->
  requests_get w url = Raise e ->
  exists e',
    PullText.uncaught (PullText.main w fs) = Some e'
    /\ PullText.respondent_info (PullText.main w fs) = []
    /\ PullText.errors (PullText.main w fs) = []
    /\ PullText.disk (PullText.main w fs) = fs.
Proof.
  intros Hread Hin Hget.
  destruct (apply_raises (requests_get w) urls url e Hin Hget) as [e' He'].
  exists e'. rewrite (main_not_enumerated w fs e'); [done|].
  by rewrite Hread.
Qed.

(** The last of three URLs is down: the two images before it are lost. *)
Lemma one_bad_url_ends_run_witness :
  exists e',
    PullText.uncaught
      (PullText.main (Examples.sample ([], None) (Ok ["p0"; "p1"; "down"]))
         (Examples.stale PullText.out_path)) = Some e'
    /\ PullText.respondent_info
         (PullText.main (Examples.sample ([], None) (Ok ["p0"; "p1"; "down"]))
            (Examples.stale PullText.out_path)) = []
    /\ PullText.errors
         (PullText.main (Examples.sample ([], None) (Ok ["p0"; "p1"; "down"]))
            (Examples.stale PullText.out_path)) = []
    /\ PullText.disk
         (PullText.main (Examples.sample ([], None) (Ok ["p0"; "p1"; "down"]))
            (Examples.stale PullText.out_path))
       = Examples.stale PullText.out_path.
Proof.
  apply (one_bad_url_ends_run
           (Examples.sample ([], None) (Ok ["p0"; "p1"; "down"]))
           (Examples.stale PullText.out_path)
           ["p0"; "p1"; "down"] "down" ConnectionError).
  - reflexivity.
  - apply list_elem_of_In. simpl. auto.
  - reflexivity.
Defined.

(** X2: when no fetch raises, [image_requests] holds one response per URL
    of the column, in the order of the column: the response at a position
    is the one fetched for the URL at that position. *)
Theorem responses_follow_urls (w : world) (fs : files) (urls : list string)
    (reqs : list Response) :
  read_csv_images w = Ok urls ->
  apply (requests_get w) urls = Ok reqs ->
  Forall2 (fun url r => requests_get w url = Ok r) urls
    (PullText.image_requests (PullText.main w fs))
  /\ length (PullText.image_requests (PullText.main w fs)) = length urls.
Proof.
  intros Hread Hget.
  rewrite (main_enumerated w fs urls reqs Hread Hget). simpl.
  split; [by apply apply_Forall2|by eapply apply_length].
Qed.

Lemma responses_follow_urls_witness :
  Forall2 (fun url r =>
             requests_get (Examples.sample ([], None) (Ok ["p0"; "html"])) url
             = Ok r)
    ["p0"; "html"]
    (PullText.image_requests
       (PullText.main (Examples.sample ([], None) (Ok ["p0"; "html"])) ∅))
  /\ length (PullText.image_requests
               (PullText.main (Examples.sample ([], None) (Ok ["p0"; "html"])) ∅))
     = length ["p0"; "html"].
Proof.
  apply (responses_follow_urls
           (Examples.sample ([], None) (Ok ["p0"; "html"])) ∅
           ["p0"; "html"]
           [{| content := "p0" |}; {| content := "html" |}]);
    reflexivity.
Defined.

(** ** The recorded positions *)

Lemma elem_of_failed w reqs : forall index i,
  i ∈ PullText.failed w index reqs
  <-> exists k image e,
        i = index + k /\ reqs !! k = Some image
        /\ PullText.ocr_text w image = Raise e.
Proof.
  induction reqs as [|r rest IH]; intros index i; simpl.
  - split.
    + intros H. by apply elem_of_nil in H.
    + intros (k & image & e & _ & Hk & _). done.
  - destruct (PullText.ocr_text w r) as [t|e] eqn:Hr.
    + rewrite IH. split.
      * intros (k & image & e & -> & Hk & He).
        exists (S k), image, e. split; [lia|done].
      * intros (k & image & e & -> & Hk & He).
        destruct k as [|k]; simpl in Hk; [congruence|].
        exists k, image, e. split; [lia|done].
    + rewrite elem_of_cons, IH. split.
      * intros [->|(k & image & e' & -> & Hk & He)].
        -- exists 0, r, e. split; [lia|done].
        -- exists (S k), image, e'. split; [lia|done].
      * intros (k & image & e' & -> & Hk & He).
        destruct k as [|k]; simpl in Hk; [left; lia|].
        right. exists k, image, e'. split; [lia|done].
Qed.

Lemma failed_from w reqs : forall index,
  Forall (fun i => index <= i < index + length reqs)
    (PullText.failed w index reqs).
Proof.
  induction reqs as [|r rest IH]; intros index; simpl; [constructor|].
  assert (Forall (fun i => index <= i < index + S (length rest))
            (PullText.failed w (S index) rest)) as Hrest.
  { eapply Forall_impl; [apply IH|]. simpl. intros i. lia. }
  destruct (PullText.ocr_text w r); [done|].
  constructor; [lia|done].
Qed.

Lemma failed_sorted w reqs : forall index,
  StronglySorted lt (PullText.failed w index reqs).
Proof.
  induction reqs as [|r rest IH]; intros index; simpl; [constructor|].
  destruct (PullText.ocr_text w r); [apply IH|].
  constructor; [apply IH|].
  eapply Forall_impl; [apply failed_from|]. simpl. intros i. lia.
Qed.

(** X3: once every URL is fetched, a position is in [errors] exactly when
    the response at that position cannot be decoded or recognised. *)
Theorem errors_are_the_failures (w : world) (fs : files) (urls : list string)
    (reqs : list Response) (i : nat) :
  read_csv_images w = Ok urls ->
  apply (requests_get w) urls = Ok reqs ->
  i ∈ PullText.errors (PullText.main w fs)
  <-> exists image e,
        reqs !! i = Some image /\ PullText.ocr_text w image = Raise e.
Proof.
  intros Hread Hget.
  rewrite (pull_text_closed w fs urls reqs Hread Hget). simpl.
  rewrite elem_of_failed. split.
  - intros (k & image & e & -> & Hk & He). eauto.
  - intros (image & e & Hi & He). exists i, image, e. done.
Qed.

Lemma errors_are_the_failures_witness :
  2 ∈ PullText.errors
        (PullText.main
           (Examples.sample ([], None) (Ok ["p0"; "p1"; "blurred"])) ∅)
  <-> exists image e,
        [{| content := "p0" |}; {| content := "p1" |};
         {| content := "blurred" |}] !! 2 = Some image
        /\ PullText.ocr_text
             (Examples.sample ([], None) (Ok ["p0"; "p1"; "blurred"])) image
           = Raise e.
Proof.
  apply (errors_are_the_failures
           (Examples.sample ([], None) (Ok ["p0"; "p1"; "blurred"])) ∅
           ["p0"; "p1"; "blurred"]
           [{| content := "p0" |}; {| content := "p1" |};
            {| content := "blurred" |}] 2);
    reflexivity.
Defined.

(** X4: in every run [errors] is strictly increasing (so it holds no
    position twice) and each of its entries is a position of
    [image_requests]. *)
Theorem errors_increasing_in_range (w : world) (fs : files) :
  StronglySorted lt (PullText.errors (PullText.main w fs))
  /\ Forall (fun i => i < length (PullText.image_requests (PullText.main w fs)))
       (PullText.errors (PullText.main w fs)).
Proof.
  destruct (main_cases w) as [[e He]|(urls & reqs & Hread & Hget)].
  - rewrite (main_not_enumerated w fs e He). simpl. split; constructor.
  - rewrite (pull_text_closed w fs urls reqs Hread Hget). simpl. split.
    + apply failed_sorted.
    + eapply Forall_impl; [apply failed_from|]. simpl. intros i. lia.
Qed.

(** ** Where a text ends up *)

Lemma recognised_app w a b :
  PullText.recognised w (a ++ b)
  = PullText.recognised w a ++ PullText.recognised w b.
Proof.
  induction a as [|r a IH]; simpl; [done|].
  destruct (PullText.ocr_text w r); simpl; by rewrite IH.
Qed.

Lemma failed_app w a b : forall index,
  PullText.failed w index (a ++ b)
  = PullText.failed w index a ++ PullText.failed w (index + length a) b.
Proof.
  induction a as [|r a IH]; intros index; simpl.
  - by rewrite Nat.add_0_r.
  - rewrite IH. replace (S index + length a) with (index + S (length a)) by lia.
    by destruct (PullText.ocr_text w r).
Qed.

Lemma recognised_failed_length w a : forall index,
  length (PullText.recognised w a) + length (PullText.failed w index a)
  = length a.
Proof.
  induction a as [|r a IH]; intros index; simpl; [done|].
  specialize (IH (S index)).
  destruct (PullText.ocr_text w r); simpl; lia.
Qed.

Lemma filter_all {A} (P : A -> Prop) `{!forall x, Decision (P x)} (l : list A) :
  Forall P l -> filter P l = l.
Proof.
  induction 1 as [|x l Hx _ IH]; [done|].
  rewrite filter_cons_True by done. by rewrite IH.
Qed.

Lemma filter_none {A} (P : A -> Prop) `{!forall x, Decision (P x)} (l : list A) :
  Forall (fun x => ~ P x) l -> filter P l = [].
Proof.
  induction 1 as [|x l Hx _ IH]; [done|].
  by rewrite filter_cons_False.
Qed.

(** X5: the text of the response at position [i] is stored in
    [respondent_info] at position [i] less the number of failures recorded
    before [i]: the texts keep their order and close the gaps the failed
    items leave. *)
Theorem text_position (w : world) (fs : files) (urls : list string)
    (reqs : list Response) (i : nat) (image : Response) (t : string) :
  read_csv_images w = Ok urls ->
  apply (requests_get w) urls = Ok reqs ->
  reqs !! i = Some image ->
  PullText.ocr_text w image = Ok t ->
  PullText.respondent_info (PullText.main w fs)
    !! (i - length (filter (fun j => j < i)
                      (PullText.errors (PullText.main w fs))))
  = Some t.
Proof.
  intros Hread Hget Hi Ht.
  rewrite (pull_text_closed w fs urls reqs Hread Hget). simpl.
  pose proof (take_drop_middle reqs i image Hi) as Hsplit.
  assert (length (take i reqs) = i) as Hlen.
  { apply length_take_le. apply lookup_lt_Some in Hi. lia. }
  rewrite <- Hsplit.
  rewrite recognised_app, failed_app. simpl. rewrite Ht, Hlen.
  rewrite filter_app.
  rewrite (filter_all (fun j => j < i) (PullText.failed w 0 (take i reqs))).
  2:{ eapply Forall_impl; [apply failed_from|]. simpl. intros j. lia. }
  rewrite (filter_none (fun j => j < i) (PullText.failed w (S i) _)).
  2:{ eapply Forall_impl; [apply failed_from|]. simpl. intros j. lia. }
  rewrite app_nil_r.
  pose proof (recognised_failed_length w (take i reqs) 0) as Hcount.
  replace (i - length (PullText.failed w 0 (take i reqs)))
    with (length (PullText.recognised w (take i reqs))) by lia.
  apply list_lookup_middle. reflexivity.
Qed.

(** The text of position 4 is stored at position 2: two items before it
    failed. *)
Lemma text_position_witness :
  PullText.respondent_info
    (PullText.main
       (Examples.sample ([], None) (Ok ["p0"; "html"; "p2"; "blurred"; "p4"])) ∅)
    !! (4 - length
              (filter (fun j => j < 4)
                 (PullText.errors
                    (PullText.main
                       (Examples.sample ([], None)
                          (Ok ["p0"; "html"; "p2"; "blurred"; "p4"])) ∅))))
  = Some "p4 benefits".
Proof.
  apply (text_position
           (Examples.sample ([], None) (Ok ["p0"; "html"; "p2"; "blurred"; "p4"]))
           ∅ ["p0"; "html"; "p2"; "blurred"; "p4"]
           [{| content := "p0" |}; {| content := "html" |}; {| content := "p2" |};
            {| content := "blurred" |}; {| content := "p4" |}]
           4 {| content := "p4" |} "p4 benefits");
    reflexivity.
Defined.

(** ** Splitting the loops *)

(** X6: the OCR loop over a column in two parts is the loop over the
    second part, started at the position after the first part and from the
    state the first part leaves. *)
Theorem ocr_loop_app (w : world) (a b : list Response) (index : nat)
    (st : list string * list nat) :
  PullText.ocr_loop w index (a ++ b) st
  = PullText.ocr_loop w (index + length a) b (PullText.ocr_loop w index a st).1.
Proof.
  rewrite !ocr_loop_closed. simpl.
  by rewrite recognised_app, failed_app, !app_assoc.
Qed.

(** X7: the media loop over a timeline in two parts goes on with the
    second part from the series the first part leaves, unless the first
    part was left with an exception, which then is the result. *)
Theorem media_loop_app (a b : list tweet) (s : Series) :
  PullTweets.media_loop (a ++ b) s
  = match PullTweets.media_loop a s with
    | (s', None) => PullTweets.media_loop b s'
    | (s', Some e) => (s', Some e)
    end.
Proof.
  revert s. induction a as [|t a IH]; intros s; [done|].
  destruct (PullTweets.media_urls t) as [col|e] eqn:Ht.
  - rewrite <- app_comm_cons.
    rewrite !(media_loop_Ok t _ s col Ht). apply IH.
  - destruct (decide (e = KeyError)) as [->|He].
    + rewrite <- app_comm_cons.
      rewrite !(media_loop_KeyError t _ s Ht). apply IH.
    + rewrite <- app_comm_cons.
      by rewrite !(media_loop_unhandled t _ s e Ht He).
Qed.

(** ** What a run leaves on disk *)

Lemma pull_tweets_cases (w : world) :
  (exists items e, user_timeline w = (items, Some e))
  \/ (exists ts, user_timeline w = (ts, None)).
Proof. destruct (user_timeline w) as [items [e|]]; eauto. Qed.





(** X10: no OCR run touches a file other than the one at its output
    path. *)
Theorem ocr_run_keeps_other_files (w : world) (fs : files) (path : string) :
  path <> PullText.out_path ->
  PullText.disk (PullText.main w fs) !! path = fs !! path.
Proof.
  intros Hpath.
  destruct (main_cases w) as [[e' He']|(urls & reqs & Hread & Hget)].
  - by rewrite (main_not_enumerated w fs e' He').
  - rewrite (pull_text_closed w fs urls reqs Hread Hget). simpl.
    unfold to_csv. destruct (open_for_write w PullText.out_path); simpl; [done|].
    by apply lookup_insert_ne.
Qed.

(** The file of image URLs left by the link script is still there after
    an OCR run. *)
Lemma ocr_run_keeps_other_files_witness :
  PullText.disk
    (PullText.main (Examples.sample ([], None) (Ok ["p0"]))
       (Examples.stale PullTweets.out_path))
    !! PullTweets.out_path
  = Examples.stale PullTweets.out_path !! PullTweets.out_path.
Proof.
  apply (ocr_run_keeps_other_files
           (Examples.sample ([], None) (Ok ["p0"]))
           (Examples.stale PullTweets.out_path) PullTweets.out_path).
  discriminate.
Defined.

(** X11: no link-extraction run touches a file other than the one at its
    output path. *)
Theorem link_run_keeps_other_files (w : world) (fs : files) (path : string) :
  path <> PullTweets.out_path ->
  PullTweets.disk (PullTweets.main w fs) !! path = fs !! path.
Proof.
  intros Hpath.
  destruct (pull_tweets_cases w) as [(items & e' & Htl)|[ts Htl]].
  - by rewrite (main_timeline_fails w fs items e' Htl).
  - destruct (PullTweets.first_unhandled ts) as [e'|] eqn:Hloop.
    + by rewrite (main_loop_left w fs ts e' Htl Hloop).
    + rewrite (main_written w fs ts Htl Hloop). simpl.
      unfold to_csv.
      destruct (open_for_write w PullTweets.out_path); simpl; [done|].
      by apply lookup_insert_ne.
Qed.

Lemma link_run_keeps_other_files_witness :
  PullTweets.disk
    (PullTweets.main
       (Examples.sample ([Examples.with_media [Examples.photo "a"]], None)
          (Ok []))
       (Examples.stale PullText.out_path))
    !! PullText.out_path
  = Examples.stale PullText.out_path !! PullText.out_path.
Proof.
  apply (link_run_keeps_other_files
           (Examples.sample ([Examples.with_media [Examples.photo "a"]], None)
              (Ok []))
           (Examples.stale PullText.out_path) PullText.out_path).
  discriminate.
Defined.

(** ** What the extractor can yield *)

(** X12: when the extractor yields a column for a tweet, the tweet has a
    list of media records of which at least one has a URL, and the column
    has one entry per record: so the column is never empty, and a tweet
    whose records all lack a URL adds nothing. *)
Theorem media_urls_yields (t : tweet) (col : Series) :
  PullTweets.media_urls t = Ok col ->
  exists items,
    entities t = Some (MediaList items)
    /\ col = media_url <$> items
    /\ Exists (fun r => is_Some (media_url r)) items
    /\ col <> [].
Proof.
  unfold PullTweets.media_urls, PullTweets.json_normalize.
  destruct (entities t) as [[| |items|]|]; simpl; try done.
  unfold PullTweets.media_url_column.
  destruct (existsb _ items) eqn:Hex; [|done].
  intros [= <-]. exists items.
  apply existsb_exists in Hex as (r & Hin & Hr).
  apply bool_decide_eq_true_1 in Hr.
  split; [done|]. split; [done|]. split.
  - apply Exists_exists. exists r. split; [by apply list_elem_of_In|done].
  - destruct items; [done|discriminate].
Qed.

Lemma media_urls_yields_witness :
  exists items,
    entities (Examples.with_media [{| media_url := None |}; Examples.photo "b"])
    = Some (MediaList items)
    /\ [None; Some "b"] = media_url <$> items
    /\ Exists (fun r => is_Some (media_url r)) items
    /\ [None; Some "b"] <> [].
Proof.
  apply (media_urls_yields
           (Examples.with_media [{| media_url := None |}; Examples.photo "b"])
           [None; Some "b"]).
  reflexivity.
Defined.







Lemma extracted_nothing (ts : list tweet) :
  Forall (fun t => PullTweets.media_urls t = Raise KeyError) ts ->
  PullTweets.extracted ts = [] /\ PullTweets.first_unhandled ts = None.
Proof.
  induction 1 as [|t ts Ht _ IH]; simpl; [done|]. by rewrite Ht.
Qed.

(** X15: when no tweet of the timeline has a media record with a URL (no
    [entities], no [media] key, a null, or records that all lack
    [media_url]), every tweet is skipped, the run completes and the file it
    writes holds the header line only. *)
Theorem timeline_without_media (w : world) (fs : files) (ts : list tweet) :
  user_timeline w = (ts, None) ->
  Forall (fun t =>
            entities t = None
            \/ entities t = Some MediaAbsent
            \/ entities t = Some MediaNull
            \/ exists items, entities t = Some (MediaList items)
                             /\ Forall (fun r => media_url r = None) items)
    ts ->
  open_for_write w PullTweets.out_path = None ->
  PullTweets.cares_bot (PullTweets.main w fs) = []
  /\ PullTweets.uncaught (PullTweets.main w fs) = None
  /\ PullTweets.disk (PullTweets.main w fs)
     = <[PullTweets.out_path := [[Text EmptyString; Num 0]]]> fs.
Proof.
  intros Htl Hnone Hw.
  assert (Forall (fun t => PullTweets.media_urls t = Raise KeyError) ts) as Hkey.
  { eapply Forall_impl; [exact Hnone|]. simpl.
    intros t [Ht|[Ht|[Ht|(items & Ht & Hurls)]]].
    - unfold PullTweets.media_urls, PullTweets.json_normalize. by rewrite Ht.
    - unfold PullTweets.media_urls, PullTweets.json_normalize. by rewrite Ht.
    - unfold PullTweets.media_urls, PullTweets.json_normalize. by rewrite Ht.
    - by eapply media_urls_no_url. }
  destruct (extracted_nothing ts Hkey) as [Hex Hloop].
  rewrite (main_written w fs ts Htl Hloop). simpl. rewrite Hex.
  by rewrite (to_csv_written w fs _ _ _ Hw).
Qed.

Lemma timeline_without_media_witness :
  PullTweets.cares_bot
    (PullTweets.main
       (Examples.sample
          ([Examples.text_only;
            Examples.with_media [{| media_url := None |}]], None)
          (Ok [])) ∅)
  = []
  /\ PullTweets.uncaught
       (PullTweets.main
          (Examples.sample
             ([Examples.text_only;
               Examples.with_media [{| media_url := None |}]], None)
             (Ok [])) ∅)
     = None
  /\ PullTweets.disk
       (PullTweets.main
          (Examples.sample
             ([Examples.text_only;
               Examples.with_media [{| media_url := None |}]], None)
             (Ok [])) ∅)
     = <[PullTweets.out_path := [[Text EmptyString; Num 0]]]> ∅.
Proof.
  apply (timeline_without_media
           (Examples.sample
              ([Examples.text_only;
                Examples.with_media [{| media_url := None |}]], None)
              (Ok [])) ∅
           [Examples.text_only; Examples.with_media [{| media_url := None |}]]).
  - reflexivity.
  - constructor.
    + right. left. reflexivity.
    + constructor; [|constructor].
      right. right. right. exists [{| media_url := None |}].
      split; [reflexivity|]. repeat constructor.
  - reflexivity.
Defined.

(** ** More on the normalisation of line breaks *)

Lemma replace_absent old new s :
  old ∉ String.list_ascii_of_string s -> PullText.replace old new s = s.
Proof.
  induction s as [|c s IH]; simpl; [done|].
  intros Hnot. apply not_elem_of_cons in Hnot as [Hc Hs].
  rewrite bool_decide_eq_false_2 by congruence. by rewrite IH.
Qed.

(** X16: a recognised text that holds no line feed is stored as it is. *)
Theorem single_line_text_unchanged (w : world) (image : Response)
    (opened : Image) (text : string) :
  Image_open w (content image) = Ok opened ->
  image_to_string w opened = Ok text ->
  PullText.newline ∉ String.list_ascii_of_string text ->
  PullText.ocr_text w image = Ok text.
Proof.
  intros Hopen Hrec Hnot.
  rewrite (ocr_text_ok w image opened text Hopen Hrec).
  by rewrite replace_absent.
Qed.

Lemma single_line_text_unchanged_witness :
  PullText.ocr_text
    {| user_timeline := ([], None);
       read_csv_images := Ok [];
       requests_get := fun url => Ok {| content := url |};
       Image_open := fun c => Ok (Pixels c);
       image_to_string := fun _ => Ok "PUA approved";
       open_for_write := fun _ => None |}
    {| content := "p0" |}
  = Ok "PUA approved".
Proof.
  apply (single_line_text_unchanged
           {| user_timeline := ([], None);
              read_csv_images := Ok [];
              requests_get := fun url => Ok {| content := url |};
              Image_open := fun c => Ok (Pixels c);
              image_to_string := fun _ => Ok "PUA approved";
              open_for_write := fun _ => None |}
           {| content := "p0" |} (Pixels "p0") "PUA approved").
  - reflexivity.
  - reflexivity.
  - vm_compute. intros H. repeat (apply elem_of_cons in H as [H|H]; [discriminate H|]).
    by apply elem_of_nil in H.
Defined.

(** Replacing in a concatenation is replacing in each part. *)
Lemma replace_app (old new : ascii) (s1 s2 : string) :
  PullText.replace old new (s1 +:+ s2)
  = PullText.replace old new s1 +:+ PullText.replace old new s2.
Proof. induction s1 as [|c s1 IH]; simpl; [done|]. by rewrite IH. Qed.

(** X17: replacing twice is replacing once: a stored text goes through the
    normalisation unchanged. *)
Theorem replace_idempotent (old new : ascii) (s : string) :
  PullText.replace old new (PullText.replace old new s)
  = PullText.replace old new s.
Proof.
  induction s as [|c s IH]; simpl; [done|]. rewrite IH. f_equal.
  repeat case_bool_decide; congruence.
Qed.

(** ** Reading the written file back *)

(** X18: a link-extraction run that completes has left a file at its
    output path with one line per entry of [cares_bot] after the header;
    the line of entry [k] starts with [k], so the lines are numbered from 0
    without gaps whatever tweets were skipped, and then holds the URL. *)
Theorem link_file_read_back (w : world) (fs : files) :
  PullTweets.uncaught (PullTweets.main w fs) = None ->
  exists lines,
    PullTweets.disk (PullTweets.main w fs) !! PullTweets.out_path = Some lines
    /\ length lines = S (length (PullTweets.cares_bot (PullTweets.main w fs)))
    /\ forall k v,
         PullTweets.cares_bot (PullTweets.main w fs) !! k = Some v ->
         lines !! S k = Some [Num k; field v].
Proof.
  destruct (pull_tweets_cases w) as [(items & e' & Htl)|[ts Htl]].
  - by rewrite (main_timeline_fails w fs items e' Htl).
  - destruct (PullTweets.first_unhandled ts) as [e'|] eqn:Hloop.
    + by rewrite (main_loop_left w fs ts e' Htl Hloop).
    + rewrite (main_written w fs ts Htl Hloop). simpl. unfold to_csv.
      destruct (open_for_write w PullTweets.out_path); simpl; [done|].
      intros _. eexists. split; [apply lookup_insert_eq|].
      rewrite csv_lines_to_frame. split.
      * simpl. by rewrite length_imap.
      * intros k v Hk. simpl. rewrite list_lookup_imap.
        unfold Series in *. by rewrite Hk.
Qed.

Lemma link_file_read_back_witness :
  exists lines,
    PullTweets.disk
      (PullTweets.main
         (Examples.sample
            ([Examples.with_media [Examples.photo "a"]; Examples.text_only;
              Examples.with_media [Examples.photo "b"]], None)
            (Ok [])) ∅)
      !! PullTweets.out_path = Some lines
    /\ length lines
       = S (length
              (PullTweets.cares_bot
                 (PullTweets.main
                    (Examples.sample
                       ([Examples.with_media [Examples.photo "a"];
                         Examples.text_only;
                         Examples.with_media [Examples.photo "b"]], None)
                       (Ok [])) ∅)))
    /\ forall k v,
         PullTweets.cares_bot
           (PullTweets.main
              (Examples.sample
                 ([Examples.with_media [Examples.photo "a"];
                   Examples.text_only;
                   Examples.with_media [Examples.photo "b"]], None)
                 (Ok [])) ∅) !! k = Some v ->
         lines !! S k = Some [Num k; field v].
Proof.
  apply (link_file_read_back
           (Examples.sample
              ([Examples.with_media [Examples.photo "a"]; Examples.text_only;
                Examples.with_media [Examples.photo "b"]], None)
              (Ok [])) ∅).
  reflexivity.
Defined.

(** X19: an OCR run that completes has left a file at its output path
    with one line per text of [respondent_info] after the header, in the
    same order, each line holding that text and nothing else. *)
Theorem ocr_file_read_back (w : world) (fs : files) :
  PullText.uncaught (PullText.main w fs) = None ->
  exists lines,
    PullText.disk (PullText.main w fs) !! PullText.out_path = Some lines
    /\ length lines = S (length (PullText.respondent_info (PullText.main w fs)))
    /\ forall k t,
         PullText.respondent_info (PullText.main w fs) !! k = Some t ->
         lines !! S k = Some [Text t].
Proof.
  destruct (main_cases w) as [[e' He']|(urls & reqs & Hread & Hget)].
  - by rewrite (main_not_enumerated w fs e' He').
  - rewrite (pull_text_closed w fs urls reqs Hread Hget). simpl. unfold to_csv.
    destruct (open_for_write w PullText.out_path); simpl; [done|].
    intros _. eexists. split; [apply lookup_insert_eq|].
    rewrite csv_lines_DataFrame. split.
    + simpl. by rewrite length_fmap.
    + intros k t Hk. simpl. rewrite list_lookup_fmap. by rewrite Hk.
Qed.

Lemma ocr_file_read_back_witness :
  exists lines,
    PullText.disk
      (PullText.main (Examples.sample ([], None) (Ok ["p0"; "html"; "p2"])) ∅)
      !! PullText.out_path = Some lines
    /\ length lines
       = S (length
              (PullText.respondent_info
                 (PullText.main
                    (Examples.sample ([], None) (Ok ["p0"; "html"; "p2"])) ∅)))
    /\ forall k t,
         PullText.respondent_info
           (PullText.main
              (Examples.sample ([], None) (Ok ["p0"; "html"; "p2"])) ∅)
           !! k = Some t ->
         lines !! S k = Some [Text t].
Proof.
  apply (ocr_file_read_back
           (Examples.sample ([], None) (Ok ["p0"; "html"; "p2"])) ∅).
  reflexivity.
Defined.
